(** * Type-directed JSON-like printing (training-2018/examples/serialization_json.cpp)

    A shallow embedding of the [print] family of function templates and of
    the [Writer] class, with the output streams they write to, followed by
    the properties of the emitted text.

    Modelling choices.
    - A C++ type is a term of [ty]; the detection traits of the source
      ([is_container], [is_pointer_like], [has_member_function_serialize])
      and the standard traits it consults are boolean functions on [ty].
      For the standard library types their values are those given by the
      C++17 library; for a user class they are read off its member list.
    - A C++ object is seen through the operations the templates use on it:
      range-for iteration, comparison with a null value and dereference,
      its [serialize] member, and stream insertion.
    - [std::ostream&] parameters are references: a [stream] names a stream
      object, [std_cout] names the global [std::cout], and a [world] gives
      the state of every stream object, so a sink that is [std::cout] and a
      sink that is another stream are both covered.
    - Of a stream's format state only [boolalpha] is represented, being the
      only flag the source touches; integers are inserted in decimal, as
      with the default flags.  A [double] carries the text its insertion
      gives; how the library formats it is not modelled. *)

From Stdlib Require Import String Ascii List ZArith Bool Lia DecimalString.
Import ListNotations.
Open Scope string_scope.

(* ------------------------------------------------------------------ *)
(** ** Output streams *)

Inductive stream : Type :=
| std_cout                    (* the global std::cout *)
| stream_at (a : nat).        (* any other std::ostream object *)

Definition stream_eqb (s t : stream) : bool :=
  match s, t with
  | std_cout, std_cout => true
  | stream_at a, stream_at b => Nat.eqb a b
  | _, _ => false
  end.

Record ostream : Type := mk_ostream {
  chars : string;       (* every character inserted so far, in order *)
  boolalpha : bool      (* std::ios_base::boolalpha *)
}.

Definition world : Type := stream -> ostream.

Definition update (s : stream) (f : ostream -> ostream) (w : world) : world :=
  fun t => if stream_eqb t s then f (w t) else w t.

Definition append_chars (t : string) (o : ostream) : ostream :=
  mk_ostream (chars o ++ t) (boolalpha o).

Definition setf_boolalpha (b : bool) (o : ostream) : ostream :=
  mk_ostream (chars o) b.

(** What [os << x] inserts for the arithmetic and text types. *)
Inductive scalar : Type :=
| s_bool (b : bool)
| s_int (z : Z)
| s_char (c : ascii)
| s_text (t : string).

Definition decimal (z : Z) : string := NilZero.string_of_int (Z.to_int z).

Definition format (alpha : bool) (x : scalar) : string :=
  match x with
  | s_bool b =>
      if alpha then (if b then "true" else "false")
      else (if b then "1" else "0")
  | s_int z => decimal z
  | s_char c => String c EmptyString
  | s_text t => t
  end.

(** [s << t] for a character or character sequence [t]. *)
Definition shl_chars (s : stream) (t : string) (w : world) : world :=
  update s (append_chars t) w.

(** [s << x]: formatted insertion, reading the stream's flags. *)
Definition shl (s : stream) (x : scalar) (w : world) : world :=
  update s (fun o => append_chars (format (boolalpha o) x) o) w.

(** [s << std::boolalpha] and [s << std::noboolalpha]. *)
Definition std_boolalpha (s : stream) (w : world) : world :=
  update s (setf_boolalpha true) w.

Definition std_noboolalpha (s : stream) (w : world) : world :=
  update s (setf_boolalpha false) w.

Definition quote : string := String "034"%char EmptyString.
Definition backspace : string := String "008"%char EmptyString.

(* ------------------------------------------------------------------ *)
(** ** Types and the traits of the source *)

(** The members of a user class that the traits look for. *)
Record members : Type := mk_members {
  m_begin_end_iterator : bool;  (* begin(), end() and a nested iterator *)
  m_arrow_star : bool;          (* operator->() and operator*() *)
  m_serialize : bool;           (* serialize(Writer&) *)
  m_to_string : bool;           (* implicit conversion to std::string *)
  m_to_string_view : bool;      (* implicit conversion to std::string_view *)
  m_assign_nullopt : bool       (* operator=(std::nullopt_t) *)
}.

Inductive ty : Type :=
| t_bool
| t_int
| t_double
| t_char
| t_char_array                  (* char[N], the type of a string literal *)
| t_string                      (* std::string *)
| t_string_view                 (* std::string_view *)
| t_vector (e : ty)             (* std::vector<e> *)
| t_optional (e : ty)           (* std::optional<e> *)
| t_pointer (e : ty)            (* e* *)
| t_unique_ptr (e : ty)         (* std::unique_ptr<e> *)
| t_shared_ptr (e : ty)         (* std::shared_ptr<e> *)
| t_class (name : string) (m : members).

(** [is_container<T>]: [begin()], [end()] and [T::iterator] exist. *)
Definition is_container (T : ty) : bool :=
  match T with
  | t_string | t_string_view | t_vector _ => true
  | t_class _ m => m_begin_end_iterator m
  | _ => false
  end.

(** [is_pointer_like<T>]: member [operator->()] and [operator*()] exist. *)
Definition is_pointer_like (T : ty) : bool :=
  match T with
  | t_optional _ | t_unique_ptr _ | t_shared_ptr _ => true
  | t_class _ m => m_arrow_star m
  | _ => false
  end.

(** [has_member_function_serialize<T, Writer&>]. *)
Definition has_member_function_serialize (T : ty) : bool :=
  match T with
  | t_class _ m => m_serialize m
  | _ => false
  end.

(** [std::is_pointer_v<T>]. *)
Definition is_pointer (T : ty) : bool :=
  match T with
  | t_pointer _ => true
  | _ => false
  end.

(** [std::is_convertible_v<T, std::string>].  The constructor of
    [std::string] from a [std::string_view] is explicit, so a
    [std::string_view] is not convertible. *)
Definition is_convertible_string (T : ty) : bool :=
  match T with
  | t_string | t_char_array | t_pointer t_char => true
  | t_class _ m => m_to_string m
  | _ => false
  end.

(** [std::is_convertible_v<T, std::string_view>]. *)
Definition is_convertible_string_view (T : ty) : bool :=
  match T with
  | t_string | t_string_view | t_char_array | t_pointer t_char => true
  | t_class _ m => m_to_string_view m
  | _ => false
  end.

(** [std::is_assignable_v<T, std::nullopt_t>]. *)
Definition is_assignable_nullopt (T : ty) : bool :=
  match T with
  | t_optional _ => true
  | t_class _ m => m_assign_nullopt m
  | _ => false
  end.

(* ------------------------------------------------------------------ *)
(** ** Objects *)

(** An object of type [T], as the templates can observe it.  The
    induction principle that reaches the nested objects is [value_nested_ind]
    below. *)
#[local] Unset Elimination Schemes.
Inductive value : Type :=
| Object (T : ty)
         (range : list value)             (* visited by for (const auto& x : v) *)
         (pointee : option value)         (* Some x when *v is x, None when v holds nothing *)
         (fields : list (string * value)) (* the insertions v.serialize(writer) performs *)
         (shown : scalar).                (* what os << v inserts *)
#[local] Set Elimination Schemes.

Definition type_of (v : value) : ty :=
  match v with Object T _ _ _ _ => T end.

(** [Nvp<T>] is a pair of a name and a reference to the value. *)
Definition Nvp : Type := (string * value)%type.

Definition makeNvp (n : string) (v : value) : Nvp := (n, v).

(** The two values [makeNullValue] can return. *)
Inductive null_value : Type :=
| std_nullopt
| null_pointer.

Definition makeNullValue (T : ty) : null_value :=
  if is_assignable_nullopt T then std_nullopt else null_pointer.

(** [v == std::nullopt] holds when the optional has no value,
    [v == nullptr] when the pointer or smart pointer holds no object.
    Each comparison is well-formed only for the types [makeNullValue]
    selects it for. *)
Definition equals_null (pointee : option value) (z : null_value) : bool :=
  match z with
  | std_nullopt => match pointee with None => true | Some _ => false end
  | null_pointer => match pointee with None => true | Some _ => false end
  end.

Definition empty (n : string) : bool :=
  match n with
  | EmptyString => true
  | String _ _ => false
  end.

(* ------------------------------------------------------------------ *)
(** ** The printing functions *)

(** The [print_default] template. *)
Definition print_default (os : stream) (T : ty) (v : scalar) (w : world) : world :=
  if is_convertible_string_view T then
    shl_chars os quote (shl os v (shl_chars os quote w))
  else
    shl os v w.

(** The [print_default(std::ostream&, bool)] overload. *)
Definition print_default_bool (os : stream) (v : bool) (w : world) : world :=
  std_noboolalpha os (shl os (s_bool v) (std_boolalpha os w)).

(** The value of a [bool] argument.  For an object of type [bool] it is
    the [bool] itself; the other cases follow the conversions to [bool]. *)
Definition as_bool (v : scalar) : bool :=
  match v with
  | s_bool b => b
  | s_int z => negb (Z.eqb z 0)
  | s_char c => negb (Ascii.eqb c zero)
  | s_text _ => true
  end.

(** Overload resolution for the call [print_default(os, v)] inside
    [print<T>]: the non-template overload is the better match exactly when
    [T] is [bool]; for every other [T], also one that converts to [bool],
    the template is an exact match and is chosen. *)
Definition call_print_default (os : stream) (T : ty) (v : scalar) (w : world) : world :=
  match T with
  | t_bool => print_default_bool os (as_bool v) w
  | _ => print_default os T v w
  end.

Record Writer : Type := mk_Writer { mOs : stream }.

Section Strategies.

(** The forward declaration of [print] that the strategies call. *)
Variable print : stream -> value -> string -> world -> world.

Definition print_container (os : stream) (range : list value) (w : world) : world :=
  let w := shl_chars std_cout "[" w in
  let w := fold_left
             (fun w x => shl_chars std_cout "," (print os x "" w))
             range w in
  shl_chars std_cout "]" (shl_chars std_cout backspace w).

Definition print_pointer (os : stream) (T : ty) (pointee : option value) (w : world) : world :=
  if equals_null pointee (makeNullValue T) then
    shl_chars std_cout "null" w
  else
    match pointee with
    | Some x => print os x "" w
    | None => w
    end.

(** [operator<<(Writer&, Nvp<T>)]. *)
Definition Writer_shl_nvp (writer : Writer) (nvp : Nvp) (w : world) : world :=
  print (mOs writer) (snd nvp) (fst nvp) w.

(** [v.serialize(writer)]: the insertions of the hook, left to right. *)
Definition serialize (fields : list Nvp) (writer : Writer) (w : world) : world :=
  fold_left (fun w f => Writer_shl_nvp writer f w) fields w.

End Strategies.

(** [writer << c] for a [char]: [print<char>] with the default empty
    name, which reaches [print_default<char>] (see
    [Writer_shl_char_is_Writer_shl]). *)
Definition Writer_shl_char (writer : Writer) (c : ascii) (w : world) : world :=
  call_print_default (mOs writer) t_char (s_char c) w.

Fixpoint print (os : stream) (v : value) (n : string) (w : world) {struct v} : world :=
  match v with
  | Object T range pointee fields shown =>
      let w :=
        if negb (empty n) then
          shl_chars std_cout ":"
            (shl_chars std_cout quote
               (shl_chars std_cout n (shl_chars std_cout quote w)))
        else w in
      if is_container T && negb (is_convertible_string T) then
        print_container print os range w
      else if is_pointer_like T || is_pointer T then
        print_pointer print os T pointee w
      else if has_member_function_serialize T then
        let writer := mk_Writer os in
        let w := Writer_shl_char writer "{" w in
        let w := serialize print fields writer w in
        Writer_shl_char writer "}" w
      else
        call_print_default os T shown w
  end.

(** [operator<<(Writer&, const T&)]: [print] with the default name. *)
Definition Writer_shl (writer : Writer) (v : value) (w : world) : world :=
  print (mOs writer) v "" w.

(* ------------------------------------------------------------------ *)
(** ** The objects of the example program *)

Definition no_text : scalar := s_text "".

Definition v_bool (b : bool) : value := Object t_bool [] None [] (s_bool b).
Definition v_int (z : Z) : value := Object t_int [] None [] (s_int z).

(** A [double] whose insertion gives the characters [digits]. *)
Definition v_double (digits : string) : value :=
  Object t_double [] None [] (s_text digits).
Definition v_char (c : ascii) : value := Object t_char [] None [] (s_char c).

Definition chars_of (t : string) : list value :=
  map v_char (list_ascii_of_string t).

(** A string literal, a [std::string] and a [std::string_view]; the last
    two can be iterated, character by character. *)
Definition v_literal (t : string) : value :=
  Object t_char_array [] None [] (s_text t).
Definition v_string (t : string) : value :=
  Object t_string (chars_of t) None [] (s_text t).
Definition v_string_view (t : string) : value :=
  Object t_string_view (chars_of t) None [] (s_text t).

Definition v_vector (e : ty) (xs : list value) : value :=
  Object (t_vector e) xs None [] no_text.
Definition v_optional (e : ty) (o : option value) : value :=
  Object (t_optional e) [] o [] no_text.
Definition v_pointer (e : ty) (o : option value) : value :=
  Object (t_pointer e) [] o [] no_text.
Definition v_unique_ptr (e : ty) (o : option value) : value :=
  Object (t_unique_ptr e) [] o [] no_text.
Definition v_shared_ptr (e : ty) (o : option value) : value :=
  Object (t_shared_ptr e) [] o [] no_text.

(** Inside a hook, [writer << x] for an [x] that is not an [Nvp] goes
    through [Writer_shl], that is [print] with the empty name. *)
Definition unnamed (v : value) : Nvp := ("", v).

(** A class whose only detected member is [serialize]. *)
Definition only_serialize : members :=
  mk_members false false true false false false.

Definition t_Foo : ty := t_class "Foo" only_serialize.
Definition t_Bar : ty := t_class "Bar" only_serialize.
Definition t_Baz : ty := t_class "Baz" only_serialize.

Definition Foo (i : Z) (s : string) : value :=
  Object t_Foo [] None
    [makeNvp "i" (v_int i); unnamed (v_char ","); makeNvp "s" (v_string s)]
    no_text.

Definition Bar (foos : list value) : value :=
  Object t_Bar [] None [makeNvp "foos" (v_vector t_Foo foos)] no_text.

Definition Baz (name : string) (valid : bool) (bar : option value) : value :=
  Object t_Baz [] None
    [makeNvp "name" (v_string name); unnamed (v_char ",");
     makeNvp "valid" (v_bool valid); unnamed (v_char ",");
     makeNvp "bar" (v_optional t_Bar bar)]
    no_text.

(* ------------------------------------------------------------------ *)
(** ** Reading the result of a call *)

(** Every stream empty, with the default flags. *)
Definition blank : world := fun _ => mk_ostream "" false.

(** The characters that [print(os, v, n)] adds to the stream [s]. *)
Definition emitted (os : stream) (v : value) (n : string) (s : stream) : string :=
  chars (print os v n blank s).

(** Every stream empty, with [boolalpha] as given; [plain false] is
    [blank]. *)
Definition plain (alpha : bool) : world := fun _ => mk_ostream "" alpha.

(** The characters that [print(os, v, n)] adds to the stream [s] when the
    sink's [boolalpha] is [alpha] before the call, and the sink's
    [boolalpha] after the call. *)
Definition emitted_from (alpha : bool) (os : stream) (v : value) (n : string)
           (s : stream) : string :=
  chars (print os v n (plain alpha) s).

Definition flag_after (alpha : bool) (os : stream) (v : value) (n : string) : bool :=
  boolalpha (print os v n (plain alpha) os).

(** What each element of a range adds to [s], emitted in turn with no
    name, the first with the sink's [boolalpha] at [alpha]. *)
Fixpoint element_texts (alpha : bool) (os s : stream) (xs : list value) : list string :=
  match xs with
  | [] => []
  | x :: xs' =>
      emitted_from alpha os x "" s
      :: element_texts (flag_after alpha os x "") os s xs'
  end.

(** The label written for a non-empty name. *)
Definition label (n : string) : string := quote ++ n ++ quote ++ ":".

(** The categories of the classification, in the order of the
    [if constexpr] chain of [print]. *)
Inductive CapabilityTag : Type :=
| Sequence
| NullableReference
| SelfDescribing
| Scalar.

Definition qualifies_Sequence (T : ty) : bool :=
  is_container T && negb (is_convertible_string T).
Definition qualifies_NullableReference (T : ty) : bool :=
  is_pointer_like T || is_pointer T.
Definition qualifies_SelfDescribing (T : ty) : bool :=
  has_member_function_serialize T.

Definition classify (T : ty) : CapabilityTag :=
  if qualifies_Sequence T then Sequence
  else if qualifies_NullableReference T then NullableReference
  else if qualifies_SelfDescribing T then SelfDescribing
  else Scalar.

(** Induction on objects that reaches every nested object. *)
Section ValueInduction.

Variable P : value -> Prop.

Hypothesis step :
  forall T range pointee fields shown,
    Forall P range ->
    match pointee with Some x => P x | None => True end ->
    Forall (fun f : Nvp => P (snd f)) fields ->
    P (Object T range pointee fields shown).

Fixpoint value_nested_ind (v : value) : P v :=
  match v with
  | Object T range pointee fields shown =>
      step T range pointee fields shown
        ((fix on_range (l : list value) : Forall P l :=
            match l with
            | [] => Forall_nil P
            | x :: l' => Forall_cons x (value_nested_ind x) (on_range l')
            end) range)
        (match pointee as p
               return match p with Some x => P x | None => True end with
         | Some x => value_nested_ind x
         | None => I
         end)
        ((fix on_fields (l : list Nvp) : Forall (fun f : Nvp => P (snd f)) l :=
            match l with
            | [] => Forall_nil _
            | f :: l' =>
                Forall_cons f (value_nested_ind (snd f)) (on_fields l')
            end) fields)
  end.

End ValueInduction.

(** A world transformer that only adds characters to stream [s], which
    ones depending on the earlier state through the [boolalpha] of [os]
    alone, as does the [boolalpha] of [os] afterwards. *)
Definition adds (os : stream) (f : world -> world) (s : stream)
           (d : bool -> string) (g : bool -> bool) : Prop :=
  forall w,
    chars (f w s) = chars (w s) ++ d (boolalpha (w os))
    /\ boolalpha (f w os) = g (boolalpha (w os)).

(** Each string of the list followed by [sep]. *)
Fixpoint each_followed_by (sep : string) (l : list string) : string :=
  match l with
  | [] => ""
  | x :: l' => x ++ sep ++ each_followed_by sep l'
  end.

(** The insertions [print] makes for a non-empty name. *)
Definition write_label (n : string) (w : world) : world :=
  shl_chars std_cout ":"
    (shl_chars std_cout quote
       (shl_chars std_cout n (shl_chars std_cout quote w))).

(** [wraps v x]: [v] is [x] inside any number of nullable objects, each
    of which holds its inner object. *)
Inductive wraps : value -> value -> Prop :=
| wraps_here (x : value) : wraps x x
| wraps_inside (T : ty) (range : list value) (y : value)
               (fields : list Nvp) (shown : scalar) (x : value) :
    classify T = NullableReference ->
    wraps y x ->
    wraps (Object T range (Some y) fields shown) x.

(** No character of the string is the quote character. *)
Fixpoint quote_free (t : string) : bool :=
  match t with
  | EmptyString => true
  | String c t' => negb (Ascii.eqb c "034"%char) && quote_free t'
  end.

(** A stream object other than [std::cout], such as a
    [std::ostringstream]. *)
Definition oss : stream := stream_at 0.

(** A user class that can be iterated and also has a [serialize] member. *)
Definition t_Playlist : ty :=
  t_class "Playlist" (mk_members true false true false false false).

Definition Playlist (tracks : list value) : value :=
  Object t_Playlist tracks None [makeNvp "tracks" (v_vector t_int tracks)] no_text.

(** The strings of the list, one after the other. *)
Fixpoint joined (l : list string) : string :=
  match l with
  | [] => ""
  | x :: l' => x ++ joined l'
  end.

(** The characters [call_print_default] adds to its sink for an object of
    type [T] shown as [x], when the sink's [boolalpha] is [alpha]. *)
Definition token (alpha : bool) (T : ty) (x : scalar) : string :=
  match T with
  | t_bool => if as_bool x then "true" else "false"
  | _ =>
      if is_convertible_string_view T
      then quote ++ format alpha x ++ quote
      else format alpha x
  end.

(** A user class that can be dereferenced and also has a [serialize]
    member, and one with a conversion to [bool] as its only way into a
    stream. *)
Definition t_Handle : ty :=
  t_class "Handle" (mk_members false true true false false false).

Definition Handle (target : option value) : value :=
  Object t_Handle [] target [makeNvp "k" (v_int 1)] no_text.

Definition t_Flag : ty :=
  t_class "Flag" (mk_members false false false false false false).

Definition Flag (b : bool) : value := Object t_Flag [] None [] (s_bool b).

(** The text of a [Foo], as [Foo::serialize] lays it out. *)
Definition Foo_text (i : Z) (s : string) : string :=
  "{" ++ label "i" ++ decimal i ++ "," ++ label "s" ++ quote ++ s ++ quote ++ "}".

(** A [Bar] holding the [Foo]s with the given members, and its text. *)
Definition Foo_of (p : Z * string) : value := Foo (fst p) (snd p).

Definition Bar_of (foos : list (Z * string)) : value := Bar (map Foo_of foos).

Definition Bar_text (foos : list (Z * string)) : string :=
  "{" ++ label "foos" ++ "["
  ++ each_followed_by "," (map (fun p => Foo_text (fst p) (snd p)) foos)
  ++ backspace ++ "]" ++ "}".

(** The text of a [Baz], as [Baz::serialize] lays it out. *)
Definition Baz_text (name : string) (valid : bool)
           (bar : option (list (Z * string))) : string :=
  "{" ++ label "name" ++ quote ++ name ++ quote ++ ","
  ++ label "valid" ++ (if valid then "true" else "false") ++ ","
  ++ label "bar"
  ++ match bar with
     | None => "null"
     | Some foos => Bar_text foos
     end
  ++ "}".

(* ------------------------------------------------------------------ *)
(** ** The runs of [main], with [std::cout] as the sink *)

Example main_x_123 :
  emitted std_cout (v_int 123) "x" std_cout = quote ++ "x" ++ quote ++ ":123".
Proof. reflexivity. Qed.

Example main_print_me :
  emitted std_cout (v_literal "Print me") "x" std_cout
  = label "x" ++ quote ++ "Print me" ++ quote.
Proof. reflexivity. Qed.

Example main_numbers :
  emitted std_cout (v_vector t_int [v_int 1; v_int 2; v_int 3]) "numbers" std_cout
  = label "numbers" ++ "[1,2,3," ++ backspace ++ "]".
Proof. reflexivity. Qed.

Example main_pointer_to_null_pointer :
  emitted std_cout (v_pointer (t_pointer t_int) (Some (v_pointer t_int None)))
          "y" std_cout
  = label "y" ++ "null".
Proof. reflexivity. Qed.

Example main_vector_of_optionals :
  emitted std_cout
          (v_vector (t_optional t_int)
             [v_optional t_int (Some (v_int 4)); v_optional t_int None;
              v_optional t_int (Some (v_int 8))])
          "vo" std_cout
  = label "vo" ++ "[4,null,8," ++ backspace ++ "]".
Proof. reflexivity. Qed.

Example main_foo :
  emitted std_cout (Foo 20 "foo") "foo" std_cout
  = label "foo" ++ "{" ++ label "i" ++ "20," ++ label "s"
    ++ quote ++ "foo" ++ quote ++ "}".
Proof. reflexivity. Qed.

Example main_baz :
  emitted std_cout
          (Baz "Some cool BAZ" true (Some (Bar [Foo 10 "foo10"])))
          "" std_cout
  = "{" ++ label "name" ++ quote ++ "Some cool BAZ" ++ quote ++ ","
    ++ label "valid" ++ "true," ++ label "bar" ++ "{" ++ label "foos" ++ "["
    ++ "{" ++ label "i" ++ "10," ++ label "s" ++ quote ++ "foo10" ++ quote
    ++ "}," ++ backspace ++ "]}}".
Proof. reflexivity. Qed.

Example main_x_0_4 :
  emitted std_cout (v_double "0.4") "x" std_cout = label "x" ++ "0.4".
Proof. reflexivity. Qed.

(* ------------------------------------------------------------------ *)
(** ** Streams and strings *)

Lemma stream_eqb_refl (s : stream) : stream_eqb s s = true.
Proof. destruct s; simpl; auto using Nat.eqb_refl. Qed.

Lemma stream_eqb_true (s t : stream) : stream_eqb s t = true -> s = t.
Proof.
  destruct s, t; simpl; intros H; try discriminate; auto.
  apply Nat.eqb_eq in H. now subst.
Qed.

Lemma stream_eqb_false (s t : stream) : s <> t -> stream_eqb s t = false.
Proof.
  intros H. destruct (stream_eqb s t) eqn:E; [|reflexivity].
  now apply stream_eqb_true in E.
Qed.

Lemma append_assoc (a b c : string) : (a ++ b) ++ c = a ++ b ++ c.
Proof. induction a as [|x a IH]; simpl; [reflexivity | now rewrite IH]. Qed.

Lemma append_empty_r (a : string) : a ++ "" = a.
Proof. induction a as [|x a IH]; simpl; [reflexivity | now rewrite IH]. Qed.

(** Both sides of an equation between texts, with the appends
    associated to the right and the literal parts evaluated. *)
Ltac text_normal :=
  repeat (progress (simpl; rewrite ?append_assoc, ?append_empty_r)).

Lemma each_followed_by_nothing (l : list string) :
  each_followed_by "" l = joined l.
Proof. induction l as [|x l IH]; simpl; [reflexivity | now rewrite IH]. Qed.

(** ** How the insertions change a stream *)

Lemma update_other (t : stream) (g : ostream -> ostream) (w : world) (s : stream) :
  stream_eqb s t = false -> update t g w s = w s.
Proof. intros H. unfold update. now rewrite H. Qed.

Lemma chars_shl_chars (t : stream) (x : string) (w : world) (s : stream) :
  chars (shl_chars t x w s) = chars (w s) ++ (if stream_eqb s t then x else "").
Proof.
  unfold shl_chars, update.
  destruct (stream_eqb s t); simpl; [reflexivity | now rewrite append_empty_r].
Qed.

Lemma boolalpha_shl_chars (t : stream) (x : string) (w : world) (s : stream) :
  boolalpha (shl_chars t x w s) = boolalpha (w s).
Proof. unfold shl_chars, update. now destruct (stream_eqb s t). Qed.

Lemma chars_write_label (n : string) (w : world) (s : stream) :
  chars (write_label n w s)
  = chars (w s) ++ (if stream_eqb s std_cout then label n else "").
Proof.
  unfold write_label, label. rewrite !chars_shl_chars.
  destruct (stream_eqb s std_cout); simpl.
  - now rewrite !append_assoc.
  - now rewrite !append_empty_r.
Qed.

Lemma boolalpha_write_label (n : string) (w : world) (s : stream) :
  boolalpha (write_label n w s) = boolalpha (w s).
Proof. unfold write_label. now rewrite !boolalpha_shl_chars. Qed.

Lemma chars_print_default_bool (os : stream) (b : bool) (w : world) (s : stream) :
  chars (print_default_bool os b w s)
  = chars (w s) ++ (if stream_eqb s os then (if b then "true" else "false") else "").
Proof.
  unfold print_default_bool, std_noboolalpha, shl, std_boolalpha, update.
  destruct (stream_eqb s os); simpl; [reflexivity | now rewrite append_empty_r].
Qed.

Lemma chars_print_default (os : stream) (T : ty) (x : scalar) (w : world) (s : stream) :
  chars (print_default os T x w s)
  = chars (w s)
    ++ (if stream_eqb s os then
          (if is_convertible_string_view T
           then quote ++ format (boolalpha (w os)) x ++ quote
           else format (boolalpha (w os)) x)
        else "").
Proof.
  unfold print_default, shl_chars, shl, update.
  destruct (stream_eqb s os) eqn:E.
  - apply stream_eqb_true in E. subst s.
    destruct (is_convertible_string_view T); rewrite ?stream_eqb_refl; simpl;
      rewrite ?stream_eqb_refl; simpl; now rewrite ?append_assoc.
  - destruct (is_convertible_string_view T); rewrite ?E; simpl;
      now rewrite append_empty_r.
Qed.

Lemma boolalpha_print_default (os : stream) (T : ty) (x : scalar) (w : world) (s : stream) :
  boolalpha (print_default os T x w s) = boolalpha (w s).
Proof.
  unfold print_default, shl_chars, shl, update.
  destruct (is_convertible_string_view T); destruct (stream_eqb s os); reflexivity.
Qed.

(** [call_print_default] adds the token to the sink; it clears the sink's
    [boolalpha] when [T] is [bool] and leaves it alone otherwise. *)
Lemma chars_call_print_default (os : stream) (T : ty) (x : scalar)
      (w : world) (s : stream) :
  chars (call_print_default os T x w s)
  = chars (w s) ++ (if stream_eqb s os then token (boolalpha (w os)) T x else "").
Proof.
  destruct T; try apply chars_print_default.
  apply chars_print_default_bool.
Qed.

Lemma boolalpha_call_print_default (os : stream) (T : ty) (x : scalar) (w : world) :
  boolalpha (call_print_default os T x w os)
  = match T with t_bool => false | _ => boolalpha (w os) end.
Proof.
  destruct T; try apply boolalpha_print_default.
  simpl. unfold print_default_bool, std_noboolalpha, update.
  now rewrite stream_eqb_refl.
Qed.

Lemma call_print_default_other (os : stream) (T : ty) (x : scalar)
      (w : world) (s : stream) :
  stream_eqb s os = false -> call_print_default os T x w s = w s.
Proof.
  intros H.
  assert (D : print_default os T x w s = w s).
  { unfold print_default, shl, shl_chars.
    destruct (is_convertible_string_view T); now rewrite ?update_other by exact H. }
  destruct T; try exact D.
  simpl. unfold print_default_bool, std_noboolalpha, std_boolalpha, shl.
  now rewrite ?update_other by exact H.
Qed.

(** The first step of [print]: the label, when there is a name. *)
Lemma print_unfold (os : stream) (T : ty) (range : list value)
      (pointee : option value) (fields : list Nvp) (shown : scalar)
      (n : string) (w : world) :
  print os (Object T range pointee fields shown) n w
  = let w := if negb (empty n) then write_label n w else w in
    if qualifies_Sequence T then print_container print os range w
    else if qualifies_NullableReference T then print_pointer print os T pointee w
    else if qualifies_SelfDescribing T then
      Writer_shl_char (mk_Writer os) "}"
        (serialize print fields (mk_Writer os)
           (Writer_shl_char (mk_Writer os) "{" w))
    else call_print_default os T shown w.
Proof. reflexivity. Qed.

(** The two shortcuts of the model agree with [Writer_shl]. *)
Lemma Writer_shl_char_is_Writer_shl (writer : Writer) (c : ascii) (w : world) :
  Writer_shl writer (v_char c) w = Writer_shl_char writer c w.
Proof. reflexivity. Qed.

Lemma unnamed_is_Writer_shl (writer : Writer) (v : value) (w : world) :
  Writer_shl_nvp print writer (unnamed v) w = Writer_shl writer v w.
Proof. reflexivity. Qed.

(** [print] takes the branch that [classify] names. *)
Lemma print_by_tag (os : stream) (T : ty) (range : list value)
      (pointee : option value) (fields : list Nvp) (shown : scalar)
      (n : string) (w : world) :
  print os (Object T range pointee fields shown) n w
  = let w := if negb (empty n) then write_label n w else w in
    match classify T with
    | Sequence => print_container print os range w
    | NullableReference => print_pointer print os T pointee w
    | SelfDescribing =>
        Writer_shl_char (mk_Writer os) "}"
          (serialize print fields (mk_Writer os)
             (Writer_shl_char (mk_Writer os) "{" w))
    | Scalar => call_print_default os T shown w
    end.
Proof.
  rewrite print_unfold. unfold classify.
  destruct (qualifies_Sequence T); [reflexivity|].
  destruct (qualifies_NullableReference T); [reflexivity|].
  destruct (qualifies_SelfDescribing T); reflexivity.
Qed.

Lemma classify_Sequence (T : ty) :
  classify T = Sequence <-> qualifies_Sequence T = true.
Proof.
  unfold classify. destruct (qualifies_Sequence T); [tauto|].
  destruct (qualifies_NullableReference T), (qualifies_SelfDescribing T);
    split; discriminate.
Qed.

(** A nullable value that holds [y] is emitted as [y] is. *)
Lemma print_present_nullable (os : stream) (T : ty) (range : list value)
      (y : value) (fields : list Nvp) (shown : scalar) (w : world) :
  classify T = NullableReference ->
  print os (Object T range (Some y) fields shown) "" w = print os y "" w.
Proof.
  intros HT. rewrite print_by_tag, HT.
  cbv beta iota zeta delta [negb empty]. unfold print_pointer.
  destruct (makeNullValue T); reflexivity.
Qed.

Lemma print_through_wrappers (v x : value) :
  wraps v x -> forall os w, print os v "" w = print os x "" w.
Proof.
  induction 1 as [x | T range y fields shown x HT _ IH]; intros os w.
  - reflexivity.
  - rewrite print_present_nullable by exact HT. apply IH.
Qed.

(* ------------------------------------------------------------------ *)
(** ** Properties kept by every call of [print] *)

Section PrintInvariant.

Variable os : stream.
Variable Q : (world -> world) -> Prop.

Hypothesis Q_ext : forall f g, (forall w, f w = g w) -> Q f -> Q g.
Hypothesis Q_id : Q (fun w => w).
Hypothesis Q_seq : forall f g, Q f -> Q g -> Q (fun w => g (f w)).
Hypothesis Q_cout : forall t, Q (shl_chars std_cout t).
Hypothesis Q_default : forall T x, Q (call_print_default os T x).

Lemma invariant_fold (A : Type) (f : A -> world -> world) (l : list A) :
  Forall (fun a => Q (f a)) l ->
  Q (fun w => fold_left (fun w a => f a w) l w).
Proof.
  induction 1 as [|a l Ha _ IH]; simpl.
  - exact Q_id.
  - exact (Q_seq (f a) (fun w => fold_left (fun w a => f a w) l w) Ha IH).
Qed.

(** A property of stream transformers that holds of doing nothing, of
    writing to [std::cout] and of [call_print_default] on the sink, and
    that is kept by doing one thing after another, holds of [print]. *)
Lemma print_invariant (v : value) : forall n, Q (print os v n).
Proof.
  induction v as [T range pointee fields shown Hr Hp Hf] using value_nested_ind.
  intros n.
  pose (L := fun w : world => if negb (empty n) then write_label n w else w).
  pose (B := fun w : world =>
               if qualifies_Sequence T then print_container print os range w
               else if qualifies_NullableReference T
                    then print_pointer print os T pointee w
               else if qualifies_SelfDescribing T then
                 Writer_shl_char (mk_Writer os) "}"
                   (serialize print fields (mk_Writer os)
                      (Writer_shl_char (mk_Writer os) "{" w))
               else call_print_default os T shown w).
  apply (Q_ext (fun w => B (L w))).
  { intros w. now rewrite print_unfold. }
  apply (Q_seq L B); unfold L, B; clear L B.
  - destruct (empty n); simpl; [exact Q_id|].
    unfold write_label.
    apply (Q_seq (fun w => shl_chars std_cout quote
                              (shl_chars std_cout n (shl_chars std_cout quote w)))
                 (shl_chars std_cout ":")); [|apply Q_cout].
    apply (Q_seq (fun w => shl_chars std_cout n (shl_chars std_cout quote w))
                 (shl_chars std_cout quote)); [|apply Q_cout].
    apply (Q_seq (shl_chars std_cout quote) (shl_chars std_cout n));
      apply Q_cout.
  - destruct (qualifies_Sequence T).
    { unfold print_container.
      apply (Q_seq (fun w => fold_left
                               (fun w x => shl_chars std_cout "," (print os x "" w))
                               range (shl_chars std_cout "[" w))
                   (fun w => shl_chars std_cout "]"
                               (shl_chars std_cout backspace w))).
      - apply (Q_seq (shl_chars std_cout "[")
                     (fun w => fold_left
                                 (fun w x => shl_chars std_cout "," (print os x "" w))
                                 range w)); [apply Q_cout|].
        apply (invariant_fold value
                 (fun x w => shl_chars std_cout "," (print os x "" w))).
        apply Forall_impl with (2 := Hr). intros x Hx.
        apply (Q_seq (print os x "") (shl_chars std_cout ",")); [apply Hx|apply Q_cout].
      - apply (Q_seq (shl_chars std_cout backspace) (shl_chars std_cout "]"));
          apply Q_cout. }
    destruct (qualifies_NullableReference T).
    { unfold print_pointer.
      destruct (equals_null pointee (makeNullValue T)); [apply Q_cout|].
      destruct pointee as [y|]; [apply Hp | exact Q_id]. }
    destruct (qualifies_SelfDescribing T); [|apply Q_default].
    apply (Q_seq (fun w => serialize print fields (mk_Writer os)
                             (Writer_shl_char (mk_Writer os) "{" w))
                 (Writer_shl_char (mk_Writer os) "}")); [|apply Q_default].
    apply (Q_seq (Writer_shl_char (mk_Writer os) "{")
                 (serialize print fields (mk_Writer os))); [apply Q_default|].
    unfold serialize.
    apply (invariant_fold Nvp (fun f w => Writer_shl_nvp print (mk_Writer os) f w)).
    apply Forall_impl with (2 := Hf). intros f Hx. apply Hx.
Qed.

End PrintInvariant.

(** Streams that are neither the sink nor [std::cout] keep their state. *)
Lemma print_other_stream (os : stream) (v : value) (n : string) (s : stream) :
  stream_eqb s os = false ->
  stream_eqb s std_cout = false ->
  forall w, print os v n w s = w s.
Proof.
  intros Hos Hc.
  apply (print_invariant os (fun f => forall w, f w s = w s)).
  - intros f g E H w. rewrite <- E. apply H.
  - reflexivity.
  - intros f g Hf Hg w. now rewrite Hg, Hf.
  - intros t w. now apply update_other.
  - intros T x w. now apply call_print_default_other.
Qed.

(** At every stream [print] leaves [boolalpha] as it was, or, at the
    sink, cleared. *)
Lemma print_boolalpha (os : stream) (v : value) (n : string) (w : world) (s : stream) :
  boolalpha (print os v n w s) = boolalpha (w s)
  \/ (s = os /\ boolalpha (print os v n w s) = false).
Proof.
  revert w.
  apply (print_invariant os
           (fun f => forall w, boolalpha (f w s) = boolalpha (w s)
                               \/ (s = os /\ boolalpha (f w s) = false))).
  - intros f g E H w. rewrite <- E. apply H.
  - intros w. now left.
  - intros f g Hf Hg w.
    destruct (Hg (f w)) as [G|G]; [|now right].
    rewrite G. apply Hf.
  - intros t w. left. apply boolalpha_shl_chars.
  - intros T x w. destruct (stream_eqb s os) eqn:E.
    + apply stream_eqb_true in E. subst s.
      rewrite boolalpha_call_print_default. destruct T; auto.
    + left. now rewrite call_print_default_other.
Qed.

Lemma print_keeps_clear (os : stream) (v : value) (n : string) (w : world) :
  boolalpha (w os) = false -> boolalpha (print os v n w os) = false.
Proof.
  intros H. destruct (print_boolalpha os v n w os) as [E|[_ E]]; congruence.
Qed.

(** [print] only adds characters; which ones, and the sink's [boolalpha]
    afterwards, depend on the earlier state through the sink's
    [boolalpha] alone. *)
Lemma print_adds (os : stream) (v : value) (n : string) (s : stream) :
  exists d g, adds os (print os v n) s d g.
Proof.
  apply (print_invariant os (fun f => exists d g, adds os f s d g)).
  - intros f g E (d & h & H). exists d, h. intros w. rewrite <- E. apply H.
  - exists (fun _ => ""), (fun a => a). intros w.
    now rewrite append_empty_r.
  - intros f g (d1 & g1 & Hf) (d2 & g2 & Hg).
    exists (fun a => d1 a ++ d2 (g1 a)), (fun a => g2 (g1 a)). intros w.
    destruct (Hg (f w)) as [C2 F2]. destruct (Hf w) as [C1 F1].
    rewrite C2, F2, C1, F1. now rewrite append_assoc.
  - intros t. exists (fun _ => if stream_eqb s std_cout then t else ""), (fun a => a).
    intros w. now rewrite chars_shl_chars, boolalpha_shl_chars.
  - intros T x.
    exists (fun a => if stream_eqb s os then token a T x else ""),
           (fun a => match T with t_bool => false | _ => a end).
    intros w. now rewrite chars_call_print_default, boolalpha_call_print_default.
Qed.

Lemma print_frame (os : stream) (v : value) (n : string) (w : world) (s : stream) :
  chars (print os v n w s)
  = chars (w s) ++ emitted_from (boolalpha (w os)) os v n s
  /\ boolalpha (print os v n w os) = flag_after (boolalpha (w os)) os v n.
Proof.
  destruct (print_adds os v n s) as (d & g & H).
  destruct (H w) as [C F].
  destruct (H (plain (boolalpha (w os)))) as [C0 F0].
  unfold emitted_from, flag_after. split.
  - rewrite C, C0. reflexivity.
  - rewrite F, F0. reflexivity.
Qed.

Lemma flag_after_clear (os : stream) (v : value) (n : string) :
  flag_after false os v n = false.
Proof. unfold flag_after. now apply print_keeps_clear. Qed.

(** With the sink's [boolalpha] clear, as it is by default, what is added
    is what is added to empty streams. *)
Lemma print_chars (os : stream) (v : value) (n : string) (w : world) (s : stream) :
  boolalpha (w os) = false ->
  chars (print os v n w s) = chars (w s) ++ emitted os v n s.
Proof.
  intros H. rewrite (proj1 (print_frame os v n w s)), H. reflexivity.
Qed.

Lemma element_texts_clear (os s : stream) (xs : list value) :
  element_texts false os s xs = map (fun x => emitted os x "" s) xs.
Proof.
  induction xs as [|x xs IH]; simpl; [reflexivity|].
  now rewrite flag_after_clear, IH.
Qed.

Lemma print_elements_frame (os : stream) (range : list value) (w : world) (s : stream) :
  chars (fold_left (fun w x => shl_chars std_cout "," (print os x "" w)) range w s)
  = chars (w s)
    ++ each_followed_by (if stream_eqb s std_cout then "," else "")
         (element_texts (boolalpha (w os)) os s range).
Proof.
  revert w. induction range as [|x range IH]; intros w; simpl.
  - now rewrite append_empty_r.
  - rewrite IH, chars_shl_chars, boolalpha_shl_chars.
    destruct (print_frame os x "" w s) as [C F]. rewrite C.
    destruct (print_frame os x "" w os) as [_ F']. rewrite F'.
    now rewrite !append_assoc.
Qed.

Lemma chars_print_container (os : stream) (range : list value) (w : world) (s : stream) :
  chars (print_container print os range w s)
  = chars (w s)
    ++ (if stream_eqb s std_cout then "[" else "")
    ++ each_followed_by (if stream_eqb s std_cout then "," else "")
         (element_texts (boolalpha (w os)) os s range)
    ++ (if stream_eqb s std_cout then backspace ++ "]" else "").
Proof.
  unfold print_container.
  rewrite !chars_shl_chars, print_elements_frame, chars_shl_chars,
    boolalpha_shl_chars.
  destruct (stream_eqb s std_cout); simpl; now rewrite !append_assoc.
Qed.

Lemma chars_serialize (os : stream) (fields : list Nvp) (w : world) (s : stream) :
  boolalpha (w os) = false ->
  chars (serialize print fields (mk_Writer os) w s)
  = chars (w s) ++ joined (map (fun f : Nvp => emitted os (snd f) (fst f) s) fields).
Proof.
  unfold serialize. revert w.
  induction fields as [|f fields IH]; intros w Hw; simpl.
  - now rewrite append_empty_r.
  - unfold Writer_shl_nvp at 2. simpl mOs.
    rewrite IH by (now apply print_keeps_clear).
    rewrite print_chars by exact Hw. now rewrite append_assoc.
Qed.

(** The characters a call adds to a stream, from those its nested calls
    add, the streams being empty with the default flags before the
    call. *)
Lemma emitted_unfold (os : stream) (T : ty) (range : list value)
      (pointee : option value) (fields : list Nvp) (shown : scalar)
      (n : string) (s : stream) :
  emitted os (Object T range pointee fields shown) n s
  = (if stream_eqb s std_cout then (if empty n then "" else label n) else "")
    ++ match classify T with
       | Sequence =>
           (if stream_eqb s std_cout then "[" else "")
           ++ each_followed_by (if stream_eqb s std_cout then "," else "")
                (map (fun x => emitted os x "" s) range)
           ++ (if stream_eqb s std_cout then backspace ++ "]" else "")
       | NullableReference =>
           match pointee with
           | None => if stream_eqb s std_cout then "null" else ""
           | Some y => emitted os y "" s
           end
       | SelfDescribing =>
           (if stream_eqb s os then "{" else "")
           ++ joined (map (fun f : Nvp => emitted os (snd f) (fst f) s) fields)
           ++ (if stream_eqb s os then "}" else "")
       | Scalar => if stream_eqb s os then token false T shown else ""
       end.
Proof.
  unfold emitted at 1. rewrite print_by_tag. cbv zeta.
  set (w0 := if negb (empty n) then write_label n blank else blank).
  assert (L : chars (w0 s)
              = if stream_eqb s std_cout
                then (if empty n then "" else label n) else "").
  { unfold w0. destruct n as [|a n].
    - simpl. now destruct (stream_eqb s std_cout).
    - change (negb (empty (String a n))) with true. cbv iota.
      rewrite chars_write_label. simpl.
      now destruct (stream_eqb s std_cout). }
  assert (A : boolalpha (w0 os) = false).
  { unfold w0. destruct (negb (empty n)); [|reflexivity].
    now rewrite boolalpha_write_label. }
  destruct (classify T).
  - rewrite chars_print_container, L, A, element_texts_clear. reflexivity.
  - unfold print_pointer. destruct pointee as [y|].
    + replace (equals_null (Some y) (makeNullValue T)) with false
        by (now destruct (makeNullValue T)).
      rewrite print_chars, L by exact A. reflexivity.
    + replace (equals_null None (makeNullValue T)) with true
        by (now destruct (makeNullValue T)).
      rewrite chars_shl_chars, L. reflexivity.
  - unfold Writer_shl_char. simpl mOs.
    rewrite chars_call_print_default.
    rewrite chars_serialize
      by (now rewrite boolalpha_call_print_default).
    rewrite chars_call_print_default, L.
    simpl token. now rewrite !append_assoc.
  - rewrite chars_call_print_default, L, A. reflexivity.
Qed.

(** What a sequence adds to [std::cout] when [std::cout] is the sink. *)
Lemma emitted_sequence (T : ty) (range : list value) (pointee : option value)
      (fields : list Nvp) (shown : scalar) :
  classify T = Sequence ->
  emitted std_cout (Object T range pointee fields shown) "" std_cout
  = "[" ++ each_followed_by ","
             (map (fun x => emitted std_cout x "" std_cout) range)
    ++ backspace ++ "]".
Proof. intros HT. rewrite emitted_unfold, HT. reflexivity. Qed.

Lemma emitted_Foo (i : Z) (s : string) :
  emitted std_cout (Foo i s) "" std_cout = Foo_text i s.
Proof.
  unfold Foo, Foo_text, makeNvp, unnamed, v_int, v_char, v_string.
  rewrite emitted_unfold. simpl map.
  rewrite !emitted_unfold. text_normal. reflexivity.
Qed.

Lemma emitted_Bar (foos : list (Z * string)) :
  emitted std_cout (Bar_of foos) "" std_cout = Bar_text foos.
Proof.
  unfold Bar_of, Bar, Bar_text, makeNvp, v_vector.
  rewrite emitted_unfold. simpl map.
  rewrite emitted_unfold. rewrite map_map.
  rewrite (map_ext (fun p => emitted std_cout (Foo_of p) "" std_cout)
                   (fun p => Foo_text (fst p) (snd p)))
    by (intros p; apply emitted_Foo).
  text_normal. reflexivity.
Qed.

(* ------------------------------------------------------------------ *)
(** ** Sequences *)

(** C1, as the code has it.  With [std::cout] as the sink, a non-empty
    sequence of N elements emitted with no name adds an opening bracket,
    then each of the N elements in iteration order, rendered by [print]
    with no name and followed by one separator (N separators), then one
    backspace character and the closing bracket.  When the sink's
    [boolalpha] is clear before the call, as it is by default, each
    element's text is the one it has when emitted on its own. *)
Theorem C1_sequence_elements_each_followed_by_separator :
  forall (T : ty) (range : list value) (pointee : option value)
         (fields : list Nvp) (shown : scalar) (w : world),
    qualifies_Sequence T = true ->
    range <> [] ->
    chars (print std_cout (Object T range pointee fields shown) "" w std_cout)
    = chars (w std_cout)
      ++ "["
      ++ each_followed_by ","
           (element_texts (boolalpha (w std_cout)) std_cout std_cout range)
      ++ backspace ++ "]"
    /\ (boolalpha (w std_cout) = false ->
        chars (print std_cout (Object T range pointee fields shown) "" w std_cout)
        = chars (w std_cout)
          ++ "["
          ++ each_followed_by ","
               (map (fun x => emitted std_cout x "" std_cout) range)
          ++ backspace ++ "]").
Proof.
  intros T range pointee fields shown w HT _.
  assert (G : chars (print std_cout (Object T range pointee fields shown) ""
                       w std_cout)
              = chars (w std_cout)
                ++ "["
                ++ each_followed_by ","
                     (element_texts (boolalpha (w std_cout)) std_cout std_cout range)
                ++ backspace ++ "]").
  { rewrite print_unfold, HT. cbv beta iota zeta delta [negb empty].
    rewrite chars_print_container. reflexivity. }
  split; [exact G|].
  intros H. rewrite G, H, element_texts_clear. reflexivity.
Qed.

Lemma C1_sequence_witness :
  chars (print std_cout (v_vector t_int [v_int 1; v_int 2; v_int 3]) "" blank std_cout)
  = chars (blank std_cout)
    ++ "["
    ++ each_followed_by ","
         (map (fun x => emitted std_cout x "" std_cout) [v_int 1; v_int 2; v_int 3])
    ++ backspace ++ "]".
Proof.
  destruct (C1_sequence_elements_each_followed_by_separator
              (t_vector t_int) [v_int 1; v_int 2; v_int 3] None [] no_text blank)
    as [_ H].
  - reflexivity.
  - discriminate.
  - apply H. reflexivity.
Defined.

(** C1 as stated fails: three elements come with three separators and a
    backspace, and the empty sequence is not the two characters of an
    empty bracket pair. *)
Lemma C1_trailing_separator_and_backspace :
  emitted std_cout (v_vector t_int [v_int 1; v_int 2; v_int 3]) "" std_cout
    = "[1,2,3," ++ backspace ++ "]"
  /\ emitted std_cout (v_vector t_int [v_int 1; v_int 2; v_int 3]) "" std_cout
     <> "[1,2,3]"
  /\ emitted std_cout (v_vector t_int []) "" std_cout = "[" ++ backspace ++ "]"
  /\ emitted std_cout (v_vector t_int []) "" std_cout <> "[]".
Proof. repeat split; try reflexivity; vm_compute; discriminate. Qed.

(* ------------------------------------------------------------------ *)
(** ** The sink *)

(** C2.  [print(oss, std::vector<int>{1,2,3}, "numbers")] with [oss] a
    stream other than [std::cout]: the sink receives the three numbers
    only; the label, the brackets, the separators and the backspace are
    written to [std::cout]. *)
Theorem C2_structure_goes_to_std_cout :
  emitted oss (v_vector t_int [v_int 1; v_int 2; v_int 3]) "numbers" oss = "123"
  /\ emitted oss (v_vector t_int [v_int 1; v_int 2; v_int 3]) "numbers" std_cout
     = label "numbers" ++ "[,,," ++ backspace ++ "]"
  /\ emitted oss (v_optional t_int None) "" oss = ""
  /\ emitted oss (v_optional t_int None) "" std_cout = "null".
Proof. repeat split. Qed.

(* ------------------------------------------------------------------ *)
(** ** Classification *)

(** C3.  The category of a type is the first that matches in the order
    Sequence, NullableReference, SelfDescribing, Scalar, and [print]
    takes its branches in that order: [print_container] for a type that
    qualifies as a sequence, whatever else it qualifies for; otherwise
    [print_pointer] for one that qualifies as a nullable reference, also
    when it has a [serialize] member; otherwise the [serialize] member
    between braces; otherwise [print_default].  So a value whose type can
    be iterated (and is not convertible to [std::string]) and also has a
    [serialize] member is printed by [print_container], not by its
    [serialize] member. *)
Theorem C3_first_match_in_fixed_order :
  forall (os : stream) (T : ty) (range : list value) (pointee : option value)
         (fields : list Nvp) (shown : scalar) (n : string) (w : world),
    (classify T = Sequence <-> qualifies_Sequence T = true)
    /\ (classify T = NullableReference <->
        qualifies_Sequence T = false /\ qualifies_NullableReference T = true)
    /\ (classify T = SelfDescribing <->
        qualifies_Sequence T = false /\ qualifies_NullableReference T = false
        /\ qualifies_SelfDescribing T = true)
    /\ (classify T = Scalar <->
        qualifies_Sequence T = false /\ qualifies_NullableReference T = false
        /\ qualifies_SelfDescribing T = false)
    /\ (qualifies_Sequence T = true ->
        qualifies_SelfDescribing T = true ->
        print os (Object T range pointee fields shown) n w
        = print_container print os range
            (if negb (empty n) then write_label n w else w)
        /\ emitted std_cout (Object T range pointee fields shown) "" std_cout
           = "[" ++ each_followed_by ","
                      (map (fun x => emitted std_cout x "" std_cout) range)
             ++ backspace ++ "]")
    /\ (qualifies_Sequence T = true ->
        print os (Object T range pointee fields shown) n w
        = print_container print os range
            (if negb (empty n) then write_label n w else w))
    /\ (qualifies_Sequence T = false ->
        qualifies_NullableReference T = true ->
        print os (Object T range pointee fields shown) n w
        = print_pointer print os T pointee
            (if negb (empty n) then write_label n w else w))
    /\ (qualifies_Sequence T = false ->
        qualifies_NullableReference T = false ->
        qualifies_SelfDescribing T = true ->
        print os (Object T range pointee fields shown) n w
        = Writer_shl_char (mk_Writer os) "}"
            (serialize print fields (mk_Writer os)
               (Writer_shl_char (mk_Writer os) "{"
                  (if negb (empty n) then write_label n w else w))))
    /\ (qualifies_Sequence T = false ->
        qualifies_NullableReference T = false ->
        qualifies_SelfDescribing T = false ->
        print os (Object T range pointee fields shown) n w
        = call_print_default os T shown
            (if negb (empty n) then write_label n w else w)).
Proof.
  intros os T range pointee fields shown n w.
  split; [apply classify_Sequence|].
  split; [|split; [|split]].
  - unfold classify.
    destruct (qualifies_Sequence T), (qualifies_NullableReference T),
      (qualifies_SelfDescribing T); split; intros H;
      try discriminate; try (destruct H; discriminate); auto.
  - unfold classify.
    destruct (qualifies_Sequence T), (qualifies_NullableReference T),
      (qualifies_SelfDescribing T); split; intros H;
      try discriminate; try (destruct H as (? & ? & ?); discriminate); auto.
  - unfold classify.
    destruct (qualifies_Sequence T), (qualifies_NullableReference T),
      (qualifies_SelfDescribing T); split; intros H;
      try discriminate; try (destruct H as (? & ? & ?); discriminate); auto.
  - split; [|split; [|split; [|split]]].
    + intros HS _. split.
      * rewrite print_unfold, HS. reflexivity.
      * apply emitted_sequence, classify_Sequence, HS.
    + intros HS. rewrite print_unfold, HS. reflexivity.
    + intros HS HN. rewrite print_unfold, HS, HN. reflexivity.
    + intros HS HN HD. rewrite print_unfold, HS, HN, HD. reflexivity.
    + intros HS HN HD. rewrite print_unfold, HS, HN, HD. reflexivity.
Qed.

Lemma C3_iterable_and_serializable_witness :
  print std_cout (Playlist [v_int 4; v_int 5]) "" blank
  = print_container print std_cout [v_int 4; v_int 5] blank
  /\ emitted std_cout (Playlist [v_int 4; v_int 5]) "" std_cout
     = "[4,5," ++ backspace ++ "]"
  /\ print std_cout (Handle (Some (v_int 9))) "" blank
     = print_pointer print std_cout t_Handle (Some (v_int 9)) blank
  /\ emitted std_cout (Handle (Some (v_int 9))) "" std_cout = "9"
  /\ print std_cout (Foo 2 "f") "" blank
     = Writer_shl_char (mk_Writer std_cout) "}"
         (serialize print
            [makeNvp "i" (v_int 2); unnamed (v_char ","); makeNvp "s" (v_string "f")]
            (mk_Writer std_cout)
            (Writer_shl_char (mk_Writer std_cout) "{" blank))
  /\ print std_cout (v_int 3) "" blank
     = call_print_default std_cout t_int (s_int 3) blank.
Proof.
  split; [|split; [|split; [|split; [|split]]]].
  - apply (proj2 (proj2 (proj2 (proj2
             (C3_first_match_in_fixed_order std_cout t_Playlist
                [v_int 4; v_int 5] None
                [makeNvp "tracks" (v_vector t_int [v_int 4; v_int 5])]
                no_text "" blank)))));
      reflexivity.
  - reflexivity.
  - apply (proj2 (proj2 (proj2 (proj2 (proj2 (proj2
             (C3_first_match_in_fixed_order std_cout t_Handle
                [] (Some (v_int 9)) [makeNvp "k" (v_int 1)]
                no_text "" blank)))))));
      reflexivity.
  - reflexivity.
  - apply (proj2 (proj2 (proj2 (proj2 (proj2 (proj2 (proj2
             (C3_first_match_in_fixed_order std_cout t_Foo
                [] None
                [makeNvp "i" (v_int 2); unnamed (v_char ",");
                 makeNvp "s" (v_string "f")]
                no_text "" blank))))))));
      reflexivity.
  - apply (proj2 (proj2 (proj2 (proj2 (proj2 (proj2 (proj2 (proj2
             (C3_first_match_in_fixed_order std_cout t_int
                [] None [] (s_int 3) "" blank)))))))));
      reflexivity.
Defined.

(* ------------------------------------------------------------------ *)
(** ** Text *)

(** C4, as the code has it.  A type that is implicitly convertible to
    [std::string] is never classified as a sequence; when it is classified
    as a scalar and is convertible to [std::string_view], as [std::string]
    and string literals are, its value is printed between two quote
    characters. *)
Theorem C4_convertible_to_string_is_not_a_sequence :
  forall (T : ty) (range : list value) (pointee : option value)
         (fields : list Nvp) (t : string) (os : stream) (w : world),
    is_convertible_string T = true ->
    classify T <> Sequence
    /\ (classify T = Scalar ->
        is_convertible_string_view T = true ->
        chars (print os (Object T range pointee fields (s_text t)) "" w os)
        = chars (w os) ++ quote ++ t ++ quote).
Proof.
  intros T range pointee fields t os w HT. split.
  - unfold classify, qualifies_Sequence. rewrite HT, andb_false_r.
    destruct (qualifies_NullableReference T); [discriminate|].
    destruct (qualifies_SelfDescribing T); discriminate.
  - intros HS HV. rewrite print_by_tag, HS. simpl.
    rewrite chars_call_print_default, stream_eqb_refl.
    destruct T; try discriminate HT; unfold token; now rewrite HV.
Qed.

Lemma C4_std_string_witness :
  classify t_string <> Sequence
  /\ chars (print std_cout (v_string "ab") "" blank std_cout)
     = chars (blank std_cout) ++ quote ++ "ab" ++ quote.
Proof.
  destruct (C4_convertible_to_string_is_not_a_sequence
              t_string (chars_of "ab") None [] "ab" std_cout blank)
    as [H1 H2].
  - reflexivity.
  - split; [exact H1 | apply H2; reflexivity].
Defined.

(** C4 as stated fails for [std::string_view]: it is a text type that can
    be iterated, it is not implicitly convertible to [std::string], and
    its value is printed as a bracketed list of characters. *)
Lemma C4_string_view_is_a_sequence :
  is_convertible_string_view t_string_view = true
  /\ classify t_string_view = Sequence
  /\ emitted std_cout (v_string_view "ab") "" std_cout
     = "[a,b," ++ backspace ++ "]"
  /\ emitted std_cout (v_string_view "ab") "" std_cout <> quote ++ "ab" ++ quote.
Proof. repeat split; vm_compute; discriminate. Qed.

(* ------------------------------------------------------------------ *)
(** ** Nullable references *)

(** C5.  A value of a type classified NullableReference that holds
    nothing, emitted with no name, writes exactly the token [null] (to
    [std::cout]) and nothing else, whatever its type, and so whatever
    the type it would hold. *)
Theorem C5_empty_nullable_prints_null :
  forall (os : stream) (T : ty) (range : list value) (fields : list Nvp)
         (shown : scalar) (w : world),
    classify T = NullableReference ->
    print os (Object T range None fields shown) "" w = shl_chars std_cout "null" w
    /\ emitted std_cout (Object T range None fields shown) "" std_cout = "null".
Proof.
  intros os T range fields shown w HT.
  assert (E : forall o u,
             print o (Object T range None fields shown) "" u
             = shl_chars std_cout "null" u).
  { intros o u. rewrite print_by_tag, HT. simpl. unfold print_pointer.
    now destruct (makeNullValue T). }
  split; [apply E|]. unfold emitted. now rewrite E.
Qed.

Lemma C5_empty_optional_of_vector_witness :
  print std_cout (v_optional (t_vector t_Foo) None) "" blank
  = shl_chars std_cout "null" blank
  /\ emitted std_cout (v_optional (t_vector t_Foo) None) "" std_cout = "null".
Proof.
  apply (C5_empty_nullable_prints_null
           std_cout (t_optional (t_vector t_Foo)) [] [] no_text blank).
  reflexivity.
Defined.

(** C6.  A nullable value that holds an object, emitted with no name,
    has the effect of emitting that object with no name; the same holds
    through any depth of such wrappers. *)
Theorem C6_present_nullable_is_transparent :
  forall (v x : value),
    wraps v x ->
    forall (os : stream) (w : world),
      print os v "" w = print os x "" w
      /\ forall s, emitted os v "" s = emitted os x "" s.
Proof.
  intros v x H.
  assert (E : forall os w, print os v "" w = print os x "" w).
  { induction H as [x | T range y fields shown x HT _ IH]; intros os w.
    - reflexivity.
    - rewrite print_present_nullable by exact HT. apply IH. }
  intros os w. split; [apply E|]. intros s. unfold emitted. now rewrite E.
Qed.

Lemma C6_pointer_to_optional_of_vector_witness :
  print std_cout
        (v_pointer (t_optional (t_vector (t_optional t_int)))
           (Some (v_optional (t_vector (t_optional t_int))
                    (Some (v_vector (t_optional t_int)
                             [v_optional t_int (Some (v_int 4));
                              v_optional t_int None])))))
        "" blank
  = print std_cout
          (v_vector (t_optional t_int)
             [v_optional t_int (Some (v_int 4)); v_optional t_int None])
          "" blank.
Proof.
  apply C6_present_nullable_is_transparent.
  apply wraps_inside; [reflexivity|].
  apply wraps_inside; [reflexivity|].
  apply wraps_here.
Defined.

(** C7.  The null value that a nullable object is compared with depends
    on its type only: [std::nullopt] when the type is assignable from
    [std::nullopt_t], the null pointer otherwise.  So an optional is
    compared with [std::nullopt], raw and smart pointers with the null
    pointer, and [print] compares an object of type [T] with
    [makeNullValue T]. *)
Theorem C7_null_value_chosen_by_type :
  forall (T : ty),
    makeNullValue T
    = (if is_assignable_nullopt T then std_nullopt else null_pointer)
    /\ (forall e, makeNullValue (t_optional e) = std_nullopt)
    /\ (forall e, makeNullValue (t_pointer e) = null_pointer
                  /\ makeNullValue (t_unique_ptr e) = null_pointer
                  /\ makeNullValue (t_shared_ptr e) = null_pointer)
    /\ (forall os range pointee fields shown w,
           classify T = NullableReference ->
           print os (Object T range pointee fields shown) "" w
           = if equals_null pointee (makeNullValue T)
             then shl_chars std_cout "null" w
             else match pointee with
                  | Some x => print os x "" w
                  | None => w
                  end).
Proof.
  intros T. repeat split.
  intros os range pointee fields shown w HT.
  rewrite print_by_tag, HT. reflexivity.
Qed.

Lemma C7_shared_ptr_witness :
  print std_cout (v_shared_ptr t_int (Some (v_int 543))) "" blank
  = if equals_null (Some (v_int 543)) (makeNullValue (t_shared_ptr t_int))
    then shl_chars std_cout "null" blank
    else print std_cout (v_int 543) "" blank.
Proof.
  apply (proj2 (proj2 (proj2 (C7_null_value_chosen_by_type (t_shared_ptr t_int))))).
  reflexivity.
Defined.

(* ------------------------------------------------------------------ *)
(** ** Scalars *)

Lemma quote_free_digits (d : Decimal.uint) :
  quote_free (NilEmpty.string_of_uint d) = true.
Proof. induction d; simpl; auto. Qed.

Lemma quote_free_decimal (z : Z) : quote_free (decimal z) = true.
Proof.
  unfold decimal, NilZero.string_of_int, NilZero.string_of_uint.
  destruct (Z.to_int z) as [d|d]; destruct d; simpl;
    auto using quote_free_digits.
Qed.

(** What a value classified as a scalar adds to its sink. *)
Lemma chars_print_scalar (os : stream) (T : ty) (range : list value)
      (pointee : option value) (fields : list Nvp) (x : scalar) (w : world) :
  classify T = Scalar ->
  chars (print os (Object T range pointee fields x) "" w os)
  = chars (w os) ++ token (boolalpha (w os)) T x.
Proof.
  intros HT. rewrite print_by_tag, HT. simpl.
  now rewrite chars_call_print_default, stream_eqb_refl.
Qed.

Lemma token_not_bool (alpha : bool) (T : ty) (x : scalar) :
  T <> t_bool ->
  token alpha T x
  = if is_convertible_string_view T
    then quote ++ format alpha x ++ quote else format alpha x.
Proof. intros H. destruct T; try reflexivity. now destruct H. Qed.

(** C8, as the code has it.  Emitted with no name, a [bool] adds the
    token [true] or [false] whatever the stream's flags were; every other
    value classified as a scalar is inserted with [os << v], between two
    quote characters exactly when its type is convertible to
    [std::string_view].  So an integer adds its decimal digits, in which
    there is no quote character, a [double] adds the text of its
    insertion and a [char] adds that one character, all without quotes,
    and a [std::string] or a string literal adds its characters between
    two quote characters. *)
Theorem C8_scalar_tokens :
  forall (os : stream) (w : world) (b : bool) (z : Z) (t : string)
         (T : ty) (range : list value) (pointee : option value)
         (fields : list Nvp) (shown : scalar) (c : ascii),
    chars (print os (v_bool b) "" w os)
    = chars (w os) ++ (if b then "true" else "false")
    /\ chars (print os (v_int z) "" w os) = chars (w os) ++ decimal z
    /\ quote_free (decimal z) = true
    /\ chars (print os (v_string t) "" w os) = chars (w os) ++ quote ++ t ++ quote
    /\ chars (print os (v_literal t) "" w os) = chars (w os) ++ quote ++ t ++ quote
    /\ chars (print os (v_double t) "" w os) = chars (w os) ++ t
    /\ chars (print os (v_char c) "" w os) = chars (w os) ++ String c EmptyString
    /\ (classify T = Scalar ->
        (T = t_bool ->
         chars (print os (Object T range pointee fields shown) "" w os)
         = chars (w os) ++ (if as_bool shown then "true" else "false"))
        /\ (T <> t_bool ->
            is_convertible_string_view T = true ->
            chars (print os (Object T range pointee fields shown) "" w os)
            = chars (w os) ++ quote ++ format (boolalpha (w os)) shown ++ quote)
        /\ (T <> t_bool ->
            is_convertible_string_view T = false ->
            chars (print os (Object T range pointee fields shown) "" w os)
            = chars (w os) ++ format (boolalpha (w os)) shown)).
Proof.
  intros os w b z t T range pointee fields shown c.
  split; [|split; [|split; [|split; [|split; [|split; [|split]]]]]].
  - unfold v_bool. now rewrite chars_print_scalar.
  - unfold v_int. now rewrite chars_print_scalar.
  - apply quote_free_decimal.
  - unfold v_string. now rewrite chars_print_scalar.
  - unfold v_literal. now rewrite chars_print_scalar.
  - unfold v_double. now rewrite chars_print_scalar.
  - unfold v_char. now rewrite chars_print_scalar.
  - intros HT. rewrite chars_print_scalar by exact HT. repeat split.
    + intros ->. reflexivity.
    + intros HB HV. now rewrite token_not_bool, HV by exact HB.
    + intros HB HV. now rewrite token_not_bool, HV by exact HB.
Qed.

Lemma C8_char_witness :
  chars (print std_cout (v_char "a") "" blank std_cout)
  = chars (blank std_cout) ++ format (boolalpha (blank std_cout)) (s_char "a").
Proof.
  destruct (C8_scalar_tokens std_cout blank true 0%Z "" t_char [] None []
              (s_char "a") "a") as (_ & _ & _ & _ & _ & _ & _ & H).
  destruct H as (_ & _ & H); [reflexivity|].
  apply H; [discriminate | reflexivity].
Defined.

(** C8 as stated fails for a [char]: it is classified as a scalar and is
    written as the bare character, neither between quotes, as a text
    would be, nor as the decimal digits of its code. *)
Lemma C8_char_is_written_bare :
  classify t_char = Scalar
  /\ emitted std_cout (v_char "a") "" std_cout = "a"
  /\ emitted std_cout (v_char "a") "" std_cout <> quote ++ "a" ++ quote
  /\ emitted std_cout (v_char "a") "" std_cout <> decimal 97.
Proof. repeat split; vm_compute; discriminate. Qed.

Example decimal_123 : decimal 123 = "123".
Proof. reflexivity. Qed.

Example decimal_minus_7 : decimal (-7) = "-7".
Proof. reflexivity. Qed.

(* ------------------------------------------------------------------ *)
(** ** Field names *)

(** C9.  With a non-empty name, [print] writes the label, which is a
    quote, the name, a quote and a colon, once, and then does exactly what
    it does for the same value with no name; the characters that follow
    the label do not depend on the name: the elements of a sequence and
    the object held by a nullable value are emitted with no name.  The
    label is written to [std::cout].  When the sink's [boolalpha] is
    clear before the call, as it is by default, the characters that
    follow are those the value has when emitted on its own. *)
Theorem C9_label_then_value_without_name :
  forall (os : stream) (v : value) (n : string) (w : world),
    n <> "" ->
    print os v n w = print os v "" (write_label n w)
    /\ chars (print std_cout v n w std_cout)
       = chars (w std_cout) ++ label n
         ++ emitted_from (boolalpha (w std_cout)) std_cout v "" std_cout
    /\ (forall s,
           chars (print os v n w s)
           = chars (w s)
             ++ (if stream_eqb s std_cout then label n else "")
             ++ emitted_from (boolalpha (w os)) os v "" s)
    /\ (forall T range pointee fields shown,
           v = Object T range pointee fields shown ->
           classify T = Sequence ->
           chars (print std_cout v n w std_cout)
           = chars (w std_cout) ++ label n ++ "["
             ++ each_followed_by ","
                  (element_texts (boolalpha (w std_cout)) std_cout std_cout range)
             ++ backspace ++ "]")
    /\ (forall T range y fields shown,
           v = Object T range (Some y) fields shown ->
           classify T = NullableReference ->
           chars (print std_cout v n w std_cout)
           = chars (w std_cout) ++ label n
             ++ emitted_from (boolalpha (w std_cout)) std_cout y "" std_cout)
    /\ (boolalpha (w os) = false ->
        forall s,
          chars (print os v n w s)
          = chars (w s)
            ++ (if stream_eqb s std_cout then label n else "")
            ++ emitted os v "" s)
    /\ (boolalpha (w std_cout) = false ->
        chars (print std_cout v n w std_cout)
        = chars (w std_cout) ++ label n ++ emitted std_cout v "" std_cout
        /\ (forall T range pointee fields shown,
               v = Object T range pointee fields shown ->
               classify T = Sequence ->
               chars (print std_cout v n w std_cout)
               = chars (w std_cout) ++ label n ++ "["
                 ++ each_followed_by ","
                      (map (fun x => emitted std_cout x "" std_cout) range)
                 ++ backspace ++ "]")
        /\ (forall T range y fields shown,
               v = Object T range (Some y) fields shown ->
               classify T = NullableReference ->
               chars (print std_cout v n w std_cout)
               = chars (w std_cout) ++ label n ++ emitted std_cout y "" std_cout)).
Proof.
  intros os v n w Hn.
  assert (E : forall o, print o v n w = print o v "" (write_label n w)).
  { intros o. destruct v as [T range pointee fields shown].
    rewrite !print_unfold. destruct n; [now destruct Hn | reflexivity]. }
  assert (C : forall o s,
             chars (print o v n w s)
             = chars (w s)
               ++ (if stream_eqb s std_cout then label n else "")
               ++ emitted_from (boolalpha (w o)) o v "" s).
  { intros o s. rewrite E.
    rewrite (proj1 (print_frame o v "" (write_label n w) s)).
    rewrite chars_write_label, boolalpha_write_label.
    now rewrite append_assoc. }
  assert (S : forall T range pointee fields shown,
             v = Object T range pointee fields shown ->
             classify T = Sequence ->
             chars (print std_cout v n w std_cout)
             = chars (w std_cout) ++ label n ++ "["
               ++ each_followed_by ","
                    (element_texts (boolalpha (w std_cout)) std_cout std_cout range)
               ++ backspace ++ "]").
  { intros T range pointee fields shown Hv HT.
    rewrite E. subst v. rewrite print_by_tag, HT.
    cbv beta iota zeta delta [negb empty].
    rewrite chars_print_container, chars_write_label, boolalpha_write_label.
    change (stream_eqb std_cout std_cout) with true. cbv iota.
    now rewrite !append_assoc. }
  assert (N : forall T range y fields shown,
             v = Object T range (Some y) fields shown ->
             classify T = NullableReference ->
             chars (print std_cout v n w std_cout)
             = chars (w std_cout) ++ label n
               ++ emitted_from (boolalpha (w std_cout)) std_cout y "" std_cout).
  { intros T range y fields shown Hv HT.
    rewrite E. subst v. rewrite print_present_nullable by exact HT.
    rewrite (proj1 (print_frame std_cout y "" (write_label n w) std_cout)).
    rewrite chars_write_label, boolalpha_write_label.
    change (stream_eqb std_cout std_cout) with true. cbv iota.
    now rewrite append_assoc. }
  split; [apply E|]. split; [rewrite C; reflexivity|]. split; [apply C|].
  split; [exact S|]. split; [exact N|]. split.
  - intros H s. rewrite C, H. reflexivity.
  - intros H. split; [|split].
    + rewrite C, H. reflexivity.
    + intros T range pointee fields shown Hv HT.
      rewrite (S T range pointee fields shown Hv HT), H, element_texts_clear.
      reflexivity.
    + intros T range y fields shown Hv HT.
      rewrite (N T range y fields shown Hv HT), H. reflexivity.
Qed.

Lemma C9_named_vector_witness :
  print std_cout (v_vector t_int [v_int 1; v_int 2]) "nums" blank
  = print std_cout (v_vector t_int [v_int 1; v_int 2]) "" (write_label "nums" blank).
Proof.
  apply (C9_label_then_value_without_name
           std_cout (v_vector t_int [v_int 1; v_int 2]) "nums" blank).
  discriminate.
Defined.

(* ------------------------------------------------------------------ *)
(** ** Format flags *)

(** C10, as the code has it.  Emitting a [bool] adds the token to the
    sink and leaves the sink's [boolalpha] flag cleared, whatever it was
    before; no other stream changes.  When the flag was clear before the
    call, the sink changes by the added characters only. *)
Theorem C10_bool_leaves_boolalpha_cleared :
  forall (os : stream) (b : bool) (w : world) (s : stream),
    print os (v_bool b) "" w s
    = (if stream_eqb s os
       then mk_ostream (chars (w s) ++ (if b then "true" else "false")) false
       else w s)
    /\ (boolalpha (w os) = false ->
        print os (v_bool b) "" w os
        = append_chars (if b then "true" else "false") (w os)).
Proof.
  intros os b w s. split.
  - unfold v_bool. rewrite print_by_tag. simpl.
    unfold print_default_bool, std_noboolalpha, shl, std_boolalpha, update.
    destruct (stream_eqb s os); reflexivity.
  - intros H. unfold v_bool. rewrite print_by_tag. simpl.
    unfold print_default_bool, std_noboolalpha, shl, std_boolalpha, update.
    rewrite stream_eqb_refl. unfold append_chars, setf_boolalpha. simpl.
    now rewrite H.
Qed.

Lemma C10_default_flags_witness :
  print std_cout (v_bool true) "" blank std_cout
  = append_chars "true" (blank std_cout).
Proof.
  apply (proj2 (C10_bool_leaves_boolalpha_cleared std_cout true blank std_cout)).
  reflexivity.
Defined.

(** C10 as stated fails when the sink had [boolalpha] set: after the call
    the flag is cleared. *)
Lemma C10_boolalpha_not_restored :
  boolalpha (std_boolalpha std_cout blank std_cout) = true
  /\ boolalpha (print std_cout (v_bool true) ""
                  (std_boolalpha std_cout blank) std_cout) = false
  /\ boolalpha (print std_cout (v_bool true) ""
                  (std_boolalpha std_cout blank) std_cout)
     <> boolalpha (std_boolalpha std_cout blank std_cout).
Proof. repeat split. vm_compute. discriminate. Qed.

(* ------------------------------------------------------------------ *)
(** ** What a call appends, and where *)

(** X1.  [print] only appends: at every stream the earlier characters
    stay, and what is added depends on the earlier state through the
    sink's [boolalpha] alone, not on what the streams held nor on the
    flags of other streams.  When the sink's [boolalpha] is clear before
    the call, what is added is what is added to empty streams, and
    emitting a value twice adds its text twice. *)
Theorem X1_print_only_appends :
  forall (os : stream) (v : value) (n : string) (w : world) (s : stream),
    chars (print os v n w s)
    = chars (w s) ++ emitted_from (boolalpha (w os)) os v n s
    /\ (boolalpha (w os) = false ->
        chars (print os v n w s) = chars (w s) ++ emitted os v n s
        /\ chars (print os v n (print os v n w) s)
           = chars (w s) ++ emitted os v n s ++ emitted os v n s).
Proof.
  intros os v n w s. split.
  - apply print_frame.
  - intros H. split.
    + now apply print_chars.
    + rewrite print_chars by (now apply print_keeps_clear).
      rewrite print_chars by exact H. now rewrite append_assoc.
Qed.

Lemma X1_twice_witness :
  chars (print oss (Foo 1 "a") "f" blank oss)
  = chars (blank oss) ++ emitted oss (Foo 1 "a") "f" oss
  /\ chars (print oss (Foo 1 "a") "f" (print oss (Foo 1 "a") "f" blank) oss)
     = chars (blank oss) ++ emitted oss (Foo 1 "a") "f" oss
       ++ emitted oss (Foo 1 "a") "f" oss.
Proof.
  apply (proj2 (X1_print_only_appends oss (Foo 1 "a") "f" blank oss)).
  reflexivity.
Defined.

(** A class that goes into a stream through its conversion to [bool]
    takes the template, so its text follows the sink's [boolalpha]. *)
Example Flag_follows_boolalpha :
  emitted_from false std_cout (Flag true) "" std_cout = "1"
  /\ emitted_from true std_cout (Flag true) "" std_cout = "true"
  /\ flag_after true std_cout (Flag true) "" = true.
Proof. repeat split. Qed.

(** X2.  A stream that is neither the sink nor [std::cout] is left as it
    was, characters and flags. *)
Theorem X2_print_changes_only_sink_and_std_cout :
  forall (os : stream) (v : value) (n : string) (w : world) (s : stream),
    s <> os ->
    s <> std_cout ->
    print os v n w s = w s.
Proof.
  intros os v n w s Hos Hc.
  apply print_other_stream; now apply stream_eqb_false.
Qed.

Lemma X2_third_stream_witness :
  print oss (Baz "b" true (Some (Bar_of [(1%Z, "f")]))) "baz" blank (stream_at 1)
  = blank (stream_at 1).
Proof.
  apply X2_print_changes_only_sink_and_std_cout; discriminate.
Defined.

(** X3.  [print] never sets [boolalpha]: at a stream other than the sink
    the flag is as before, and at any stream where it was clear it is
    clear afterwards. *)
Theorem X3_print_never_sets_boolalpha :
  forall (os : stream) (v : value) (n : string) (w : world) (s : stream),
    (s <> os -> boolalpha (print os v n w s) = boolalpha (w s))
    /\ (boolalpha (w s) = false -> boolalpha (print os v n w s) = false).
Proof.
  intros os v n w s.
  destruct (print_boolalpha os v n w s) as [H|[H1 H2]]; split; intros H0.
  - exact H.
  - now rewrite H.
  - now destruct H0.
  - exact H2.
Qed.

Lemma X3_flags_witness :
  boolalpha (print oss (v_vector t_bool [v_bool true]) "" blank std_cout)
  = boolalpha (blank std_cout)
  /\ boolalpha (print oss (v_vector t_bool [v_bool true]) "" blank oss) = false.
Proof.
  split.
  - apply (proj1 (X3_print_never_sets_boolalpha
                    oss (v_vector t_bool [v_bool true]) "" blank std_cout)).
    discriminate.
  - apply (proj2 (X3_print_never_sets_boolalpha
                    oss (v_vector t_bool [v_bool true]) "" blank oss)).
    reflexivity.
Defined.

(* ------------------------------------------------------------------ *)
(** ** Objects with a [serialize] member *)

(** X4.  An object printed through its [serialize] member gives the sink
    an opening brace, then the text of each insertion of the hook in
    order, with nothing added between them, then a closing brace. *)
Theorem X4_self_describing_braces_around_hook_text :
  forall (os : stream) (T : ty) (range : list value) (pointee : option value)
         (fields : list Nvp) (shown : scalar),
    classify T = SelfDescribing ->
    emitted os (Object T range pointee fields shown) "" os
    = "{" ++ joined (map (fun f : Nvp => emitted os (snd f) (fst f) os) fields)
      ++ "}".
Proof.
  intros os T range pointee fields shown HT.
  rewrite emitted_unfold, HT, stream_eqb_refl. simpl empty.
  now destruct (stream_eqb os std_cout).
Qed.

Lemma X4_Foo_witness :
  emitted oss (Foo 7 "f") "" oss
  = "{" ++ joined (map (fun f : Nvp => emitted oss (snd f) (fst f) oss)
                       [makeNvp "i" (v_int 7); unnamed (v_char ",");
                        makeNvp "s" (v_string "f")])
    ++ "}".
Proof.
  apply (X4_self_describing_braces_around_hook_text
           oss t_Foo [] None
           [makeNvp "i" (v_int 7); unnamed (v_char ","); makeNvp "s" (v_string "f")]
           no_text).
  reflexivity.
Defined.

(** X5.  With [std::cout] as the sink a [Foo] is written as a brace, the
    label of [i], the decimal digits of [i], a comma, the label of [s],
    [s] between quotes, and a brace. *)
Theorem X5_Foo_serialize_text :
  forall (i : Z) (s : string),
    emitted std_cout (Foo i s) "" std_cout
    = "{" ++ label "i" ++ decimal i ++ "," ++ label "s" ++ quote ++ s ++ quote
      ++ "}".
Proof. intros i s. apply emitted_Foo. Qed.

(** X6.  With [std::cout] as the sink a [Bar] is written as a brace, the
    label of [foos], the vector of its [Foo]s (each followed by a comma,
    then a backspace, between brackets) and a brace. *)
Theorem X6_Bar_serialize_text :
  forall (foos : list (Z * string)),
    emitted std_cout (Bar_of foos) "" std_cout
    = "{" ++ label "foos" ++ "["
      ++ each_followed_by "," (map (fun p => Foo_text (fst p) (snd p)) foos)
      ++ backspace ++ "]" ++ "}".
Proof. intros foos. apply emitted_Bar. Qed.

(** X7.  With [std::cout] as the sink a [Baz] is written as its name
    between quotes, [true] or [false] for [valid], and for [bar] either
    [null] or the text of the [Bar] it holds, each after its label and
    separated by commas, between braces. *)
Theorem X7_Baz_serialize_text :
  forall (name : string) (valid : bool) (bar : option (list (Z * string))),
    emitted std_cout (Baz name valid (option_map Bar_of bar)) "" std_cout
    = Baz_text name valid bar.
Proof.
  intros name valid bar.
  unfold Baz, Baz_text, makeNvp, unnamed, v_string, v_bool, v_char, v_optional.
  rewrite emitted_unfold. simpl map.
  rewrite !emitted_unfold.
  destruct bar as [foos|]; simpl option_map; cbv iota.
  - rewrite emitted_Bar. destruct valid; text_normal; reflexivity.
  - destruct valid; text_normal; reflexivity.
Qed.

(* ------------------------------------------------------------------ *)
(** ** Edge cases of sequences and nullable values *)

(** X8.  For a sequence with no elements [print_container] writes three
    characters to [std::cout]: the opening bracket, a backspace and the
    closing bracket; a sink other than [std::cout] is left as it was. *)
Theorem X8_empty_sequence_three_characters :
  forall (os : stream) (T : ty) (pointee : option value) (fields : list Nvp)
         (shown : scalar) (w : world),
    classify T = Sequence ->
    chars (print os (Object T [] pointee fields shown) "" w std_cout)
    = chars (w std_cout) ++ "[" ++ backspace ++ "]"
    /\ (os <> std_cout ->
        print os (Object T [] pointee fields shown) "" w os = w os).
Proof.
  intros os T pointee fields shown w HT. split.
  - rewrite print_by_tag, HT. cbv beta iota zeta delta [negb empty].
    rewrite chars_print_container. reflexivity.
  - intros Hos. apply stream_eqb_false in Hos.
    rewrite print_by_tag, HT. unfold print_container, shl_chars. simpl.
    now rewrite !update_other by exact Hos.
Qed.

Lemma X8_empty_vector_witness :
  chars (print oss (v_vector t_int []) "" blank std_cout)
  = chars (blank std_cout) ++ "[" ++ backspace ++ "]"
  /\ print oss (v_vector t_int []) "" blank oss = blank oss.
Proof.
  destruct (X8_empty_sequence_three_characters
              oss (t_vector t_int) None [] no_text blank) as [H1 H2].
  - reflexivity.
  - split; [exact H1 | apply H2; discriminate].
Defined.

(** X9.  When the sink is not [std::cout], a sequence gives the sink the
    texts its elements give it, one after the other, and nothing of its
    own: no label, bracket, separator or backspace. *)
Theorem X9_sequence_on_another_sink :
  forall (os : stream) (T : ty) (range : list value) (pointee : option value)
         (fields : list Nvp) (shown : scalar) (n : string),
    os <> std_cout ->
    classify T = Sequence ->
    emitted os (Object T range pointee fields shown) n os
    = joined (map (fun x => emitted os x "" os) range).
Proof.
  intros os T range pointee fields shown n Hos HT.
  apply stream_eqb_false in Hos.
  rewrite emitted_unfold, HT, Hos. simpl.
  now rewrite each_followed_by_nothing, append_empty_r.
Qed.

Lemma X9_vector_on_string_stream_witness :
  emitted oss (v_vector t_int [v_int 1; v_int 2]) "numbers" oss
  = joined (map (fun x => emitted oss x "" oss) [v_int 1; v_int 2]).
Proof.
  apply (X9_sequence_on_another_sink
           oss (t_vector t_int) [v_int 1; v_int 2] None [] no_text "numbers").
  - discriminate.
  - reflexivity.
Defined.

(** X10.  A nullable value that holds, through any number of nullable
    values that hold something, a nullable value that holds nothing is
    written as [null], as for a pointer to a null pointer. *)
Theorem X10_chain_ending_in_empty_nullable :
  forall (v : value) (T : ty) (range : list value) (fields : list Nvp)
         (shown : scalar) (os : stream),
    wraps v (Object T range None fields shown) ->
    classify T = NullableReference ->
    emitted os v "" std_cout = "null".
Proof.
  intros v T range fields shown os Hw HT.
  unfold emitted. rewrite (print_through_wrappers _ _ Hw).
  change (emitted os (Object T range None fields shown) "" std_cout = "null").
  rewrite emitted_unfold, HT. reflexivity.
Qed.

Lemma X10_pointer_to_null_pointer_witness :
  emitted std_cout (v_pointer (t_pointer t_int) (Some (v_pointer t_int None)))
          "" std_cout
  = "null".
Proof.
  apply (X10_chain_ending_in_empty_nullable
           (v_pointer (t_pointer t_int) (Some (v_pointer t_int None)))
           (t_pointer t_int) [] [] no_text std_cout).
  - apply wraps_inside; [reflexivity | apply wraps_here].
  - reflexivity.
Defined.

(** X11.  A pointer to [char] that is not null is a pointer before it is
    a text: although its type converts to [std::string_view], the sink
    receives the one character it points to, without quotes. *)
Theorem X11_pointer_to_char_prints_one_character :
  forall (os : stream) (c : ascii),
    is_convertible_string_view (t_pointer t_char) = true
    /\ classify (t_pointer t_char) = NullableReference
    /\ emitted os (v_pointer t_char (Some (v_char c))) "" os
       = String c EmptyString.
Proof.
  intros os c. split; [reflexivity|]. split; [reflexivity|].
  unfold v_pointer, v_char. rewrite !emitted_unfold.
  simpl. rewrite stream_eqb_refl. now destruct (stream_eqb os std_cout).
Qed.

(** X12.  What a call gives its sink and what it gives [std::cout] do
    not depend on which stream, other than [std::cout], the sink is. *)
Theorem X12_text_is_the_same_on_every_other_sink :
  forall (v : value) (n : string) (a b : nat),
    emitted (stream_at a) v n (stream_at a)
    = emitted (stream_at b) v n (stream_at b)
    /\ emitted (stream_at a) v n std_cout = emitted (stream_at b) v n std_cout.
Proof.
  induction v as [T range pointee fields shown Hr Hp Hf] using value_nested_ind.
  intros n a b.
  assert (R : forall s t : stream,
             (s = stream_at a /\ t = stream_at b) \/ (s = std_cout /\ t = std_cout) ->
             map (fun x => emitted (stream_at a) x "" s) range
             = map (fun x => emitted (stream_at b) x "" t) range).
  { intros s t Hst. apply map_ext_Forall.
    apply Forall_impl with (2 := Hr). intros x Hx.
    destruct Hst as [[-> ->]|[-> ->]]; apply (Hx "" a b). }
  assert (F : forall s t : stream,
             (s = stream_at a /\ t = stream_at b) \/ (s = std_cout /\ t = std_cout) ->
             map (fun f : Nvp => emitted (stream_at a) (snd f) (fst f) s) fields
             = map (fun f : Nvp => emitted (stream_at b) (snd f) (fst f) t) fields).
  { intros s t Hst. apply map_ext_Forall.
    apply Forall_impl with (2 := Hf). intros f Hx.
    destruct Hst as [[-> ->]|[-> ->]]; apply (Hx (fst f) a b). }
  rewrite !emitted_unfold. simpl stream_eqb. rewrite !Nat.eqb_refl.
  rewrite (R (stream_at a) (stream_at b)) by (left; auto).
  rewrite (R std_cout std_cout) by (right; auto).
  rewrite (F (stream_at a) (stream_at b)) by (left; auto).
  rewrite (F std_cout std_cout) by (right; auto).
  destruct (classify T); try (split; reflexivity).
  destruct pointee as [y|]; [|split; reflexivity].
  destruct (Hp "" a b) as [H1 H2]. now rewrite H1, H2.
Qed.
